(** * Equation solver: a shallow embedding of [equation_solver.py]

    The development models the two functions of the module,
    [parse_expression] and [solve_equation], together with the Python
    built-ins they call ([str.replace], [str.split], [in], [int],
    [str]), and proves the properties stated for them.

    Modelling conventions.
    - A Python [str] is a [string]; its characters are the code points
      below 256.
    - A Python [int] is a [Z]; [//] is [Z.div] (both round toward minus
      infinity and give the remainder the sign of the divisor).
    - A raised exception is the [Raise] constructor of [result], tagged
      with the class of the exception; its message is not modelled.
    - The index [i] of the scanning loops is a [nat]; [expr[i]] is
      [String.get i expr], and [i < len(expr)] holds exactly when that
      lookup succeeds.
    - [int] and [str] are modelled without the interpreter's
      configurable limit on the number of digits they convert. *)

From Equations Require Import Equations.
From Equations.Prop Require Import Logic.
From Stdlib Require Import ZArith List Ascii String Lia Bool Permutation.
From Stdlib Require Import DecimalString DecimalPos DecimalZ.
Import ListNotations.

Open Scope string_scope.
Open Scope Z_scope.

(** ** Exceptions *)

Inductive exn : Set :=
| ValueError
| IndexError.

Inductive result (A : Type) : Type :=
| Ok (a : A)
| Raise (e : exn).

Arguments Ok {A} a.
Arguments Raise {A} e.

Definition bind {A B : Type} (m : result A) (f : A -> result B) : result B :=
  match m with
  | Ok a => f a
  | Raise e => Raise e
  end.

Notation "x <- m ;; k" := (bind m (fun x => k))
  (at level 61, m at next level, right associativity).
Notation "' p <- m ;; k" := (bind m (fun x => match x with p => k end))
  (at level 61, p pattern, m at next level, right associativity).

(** ** Python built-ins *)

Module Py.

(** [s.replace(c, '')] for a one-character [c]. *)
Fixpoint remove_char (c : ascii) (s : string) : string :=
  match s with
  | EmptyString => EmptyString
  | String a r => if Ascii.eqb a c then remove_char c r
                  else String a (remove_char c r)
  end.

(** [c in s] for a one-character [c]. *)
Fixpoint contains (c : ascii) (s : string) : bool :=
  match s with
  | EmptyString => false
  | String a r => Ascii.eqb a c || contains c r
  end.

(** [s.split(sep)] for a one-character [sep]: the pieces between the
    occurrences of [sep], so one piece more than there are occurrences. *)
Fixpoint split (sep : ascii) (s : string) : list string :=
  match s with
  | EmptyString => [EmptyString]
  | String a r =>
      if Ascii.eqb a sep then EmptyString :: split sep r
      else match split sep r with
           | piece :: pieces => String a piece :: pieces
           | [] => [String a EmptyString]
           end
  end.

(** [left, right = pieces]: unpacking into two names raises [ValueError]
    unless there are exactly two pieces. *)
Definition unpack2 (pieces : list string) : result (string * string) :=
  match pieces with
  | [l; r] => Ok (l, r)
  | _ => Raise ValueError
  end.

Definition is_digit (c : ascii) : bool :=
  let n := nat_of_ascii c in (48 <=? n)%nat && (n <=? 57)%nat.

Definition digit_value (c : ascii) : Z :=
  Z.of_nat (nat_of_ascii c) - 48.

(** The characters [int] skips around a literal: the ASCII white space
    [\t \n \v \f \r] and the space, and the two other white-space code
    points below 256 (NEL and the no-break space).  The separators
    [\x1c]-[\x1f] are not skipped. *)
Definition is_int_space (c : ascii) : bool :=
  let n := nat_of_ascii c in
  ((9 <=? n)%nat && (n <=? 13)%nat) || (n =? 32)%nat
  || (n =? 133)%nat || (n =? 160)%nat.

Fixpoint skip_space (s : string) : string :=
  match s with
  | String c r => if is_int_space c then skip_space r else s
  | EmptyString => EmptyString
  end.

(** The digits of a literal after its first digit: digits, each
    optionally preceded by one underscore.  Returns the value read and
    what is left. *)
Fixpoint read_digits (s : string) (acc : Z) : Z * string :=
  match s with
  | String c r =>
      if is_digit c then read_digits r (10 * acc + digit_value c)
      else if Ascii.eqb c "_" then
        match r with
        | String d r' =>
            if is_digit d then read_digits r' (10 * acc + digit_value d)
            else (acc, s)
        | EmptyString => (acc, s)
        end
      else (acc, s)
  | EmptyString => (acc, EmptyString)
  end.

(** [int(s)] in base 10: optional white space, an optional sign, digits
    with single underscores between them, optional white space, and
    nothing else; any other string raises [ValueError]. *)
Definition int (s : string) : result Z :=
  let s1 := skip_space s in
  let '(sign, s2) :=
    match s1 with
    | String c r => if Ascii.eqb c "+" then (1, r)
                    else if Ascii.eqb c "-" then (-1, r)
                    else (1, s1)
    | EmptyString => (1, s1)
    end in
  match s2 with
  | String c r =>
      if is_digit c then
        let '(v, rest) := read_digits r (digit_value c) in
        match skip_space rest with
        | EmptyString => Ok (sign * v)
        | String _ _ => Raise ValueError
        end
      else Raise ValueError
  | EmptyString => Raise ValueError
  end.

(** [str(n)], as the f-string [f"x={n}"] formats an [int]. *)
Definition str (n : Z) : string :=
  NilZero.string_of_int (Z.to_int n).

End Py.

(** ** [parse_expression] *)

(** [c in ['+', '-']]. *)
Definition is_sign (c : ascii) : bool :=
  Ascii.eqb c "+" || Ascii.eqb c "-".

(** [1 if expr[i] == '+' else -1] (line 73). *)
Definition sign_of (c : ascii) : Z := if Ascii.eqb c "+" then 1 else -1.

(** The inner loop (lines 78-80):
    [while i < len(expr) and expr[i] not in ['+', '-']:
         term += expr[i]; i += 1].
    Returns [term] and [i] as they are when the loop is left.  Each
    iteration moves [i] one character closer to the end of [expr]. *)
Equations? scan_term (expr : string) (i : nat) (term : string)
  : string * nat by wf (String.length expr - i)%nat lt :=
  scan_term expr i term with inspect (String.get i expr) := {
    | exist _ (Some c) _ with is_sign c := {
        | true := (term, i)
        | false := scan_term expr (S i) (term ++ String c "") }
    | exist _ None _ := (term, i) }.
Proof.
  assert (Hlt : forall (s : string) (j : nat) (a : ascii),
             String.get j s = Some a -> (j < String.length s)%nat).
  { induction s as [|b s IH]; intros [|j] a H; simpl in *;
      try discriminate; try lia.
    apply IH in H. lia. }
  apply Hlt in e. lia.
Qed.

(** "Process the term" (lines 83-96): what one signed term adds to the
    two accumulators. *)
Definition process_term (sign : Z) (term : string) (x_coeff constant : Z)
  : result (Z * Z) :=
  if Py.contains "x" term then
    let coeff_str := Py.remove_char "x" term in
    coeff <- (if String.eqb coeff_str "" || String.eqb coeff_str "+" then Ok 1
              else if String.eqb coeff_str "-" then Ok (-1)
              else Py.int coeff_str) ;;
    Ok (x_coeff + sign * coeff, constant)
  else
    if negb (String.eqb term "") then
      c <- Py.int term ;;
      Ok (x_coeff, constant + sign * c)
    else Ok (x_coeff, constant).

(** The outer loop (lines 71-96): [while i < len(expr)]: read the sign
    at [i], scan the term after it, add what it contributes.  The loop
    is left when [i] reaches the end of [expr]; an exception raised by
    [int] leaves it at once. *)
Equations? parse_loop (expr : string) (i : nat) (x_coeff constant : Z)
  : result (Z * Z) by wf (String.length expr - i)%nat lt :=
  parse_loop expr i x_coeff constant with inspect (String.get i expr) := {
    | exist _ None _ := Ok (x_coeff, constant)
    | exist _ (Some c) _ :=
        let sign := sign_of c in
        '(x_coeff', constant') <-
          process_term sign (fst (scan_term expr (S i) "")) x_coeff constant ;;
        parse_loop expr (snd (scan_term expr (S i) "")) x_coeff' constant' }.
Proof.
  assert (Hlt : forall (s : string) (j : nat) (a : ascii),
             String.get j s = Some a -> (j < String.length s)%nat).
  { induction s as [|b s IH]; intros [|j] a H; simpl in *;
      try discriminate; try lia.
    apply IH in H. lia. }
  assert (Hle : forall (s : string) (j : nat) (t : string),
             (j <= snd (scan_term s j t))%nat).
  { clear. intros s j t. funelim (scan_term s j t); simpl; lia. }
  apply Hlt in e. specialize (Hle expr (S i) ""). lia.
Qed.

(** [parse_expression(expr)] (lines 52-98). *)
Definition parse_expression (expr : string) : result (Z * Z) :=
  let expr := Py.remove_char " " expr in
  match String.get 0 expr with
  | None => Raise IndexError
  | Some c0 =>
      let expr := if negb (is_sign c0) then String "+" expr else expr in
      parse_loop expr 0 0 0
  end.

(** ** [solve_equation] *)

(** [solve_equation(equation)] (lines 21-50). *)
Definition solve_equation (equation : string) : result string :=
  '(left_, right_) <- Py.unpack2 (Py.split "=" equation) ;;
  '(left_x_coeff, left_const) <- parse_expression left_ ;;
  '(right_x_coeff, right_const) <- parse_expression right_ ;;
  let x_coeff := left_x_coeff - right_x_coeff in
  let const_diff := right_const - left_const in
  if x_coeff =? 0 then
    if const_diff =? 0 then Ok "Infinite solutions"
    else Ok "No solution"
  else
    let x_value := const_diff / x_coeff in
    Ok ("x=" ++ Py.str x_value).

(** ** Outcomes *)

(** The three outcomes and the strings [solve_equation] returns for
    them. *)
Inductive SolveResult : Set :=
| UniqueSolution (x : Z)
| NoSolution
| InfiniteSolutions.

Definition show (r : SolveResult) : string :=
  match r with
  | UniqueSolution x => "x=" ++ Py.str x
  | NoSolution => "No solution"
  | InfiniteSolutions => "Infinite solutions"
  end.

(** ** Terms of a side

    A side is read as a sequence of signed terms: a sign character
    followed by a body that holds no sign character. *)

Definition term : Type := ascii * string.

Fixpoint all_chars (f : ascii -> bool) (s : string) : bool :=
  match s with
  | EmptyString => true
  | String c r => f c && all_chars f r
  end.

Definition sign_free (s : string) : bool :=
  all_chars (fun c => negb (is_sign c)) s.

Definition is_term (t : term) : bool :=
  is_sign (fst t) && sign_free (snd t).

(** The string a sequence of terms is written as. *)
Fixpoint render (ts : list term) : string :=
  match ts with
  | [] => EmptyString
  | (sc, body) :: ts' => String sc (body ++ render ts')
  end.

(** Where a term body ends: at the end of the string or before a
    sign. *)
Definition at_boundary (rest : string) : bool :=
  match rest with
  | EmptyString => true
  | String c _ => is_sign c
  end.

(** The contributions of a sequence of terms, added from left to right
    as the outer loop adds them. *)
Fixpoint sum_terms (ts : list term) (x_coeff constant : Z) : result (Z * Z) :=
  match ts with
  | [] => Ok (x_coeff, constant)
  | (sc, body) :: ts' =>
      '(x_coeff', constant') <- process_term (sign_of sc) body x_coeff constant ;;
      sum_terms ts' x_coeff' constant'
  end.

(** The terms of a string whose first character is a sign:
    [tokens_from] reads [s] while the term under way has the sign [sc]
    and, so far, the body [body]. *)
Fixpoint tokens_from (s : string) (sc : ascii) (body : string) : list term :=
  match s with
  | EmptyString => [(sc, body)]
  | String c r =>
      if is_sign c then (sc, body) :: tokens_from r c EmptyString
      else tokens_from r sc (body ++ String c EmptyString)
  end.

Definition tokens (s : string) : list term :=
  match s with
  | EmptyString => []
  | String c r => tokens_from r c EmptyString
  end.

(** The string the loop scans (lines 62-68): spaces removed, a ['+'] put
    in front unless the first character is a sign already. *)
Definition normalize (expr : string) : string :=
  let expr := Py.remove_char " " expr in
  match expr with
  | EmptyString => EmptyString
  | String c0 _ => if negb (is_sign c0) then String "+" expr else expr
  end.








(** ** Well-formed input *)





Fixpoint count_char (c : ascii) (s : string) : nat :=
  match s with
  | EmptyString => 0
  | String a r => (if Ascii.eqb a c then 1 else 0) + count_char c r
  end.

(** ** Characters a side may hold *)



(** ** Integer solutions *)

(** [y] solves [left_x_coeff * x + left_const = right_x_coeff * x +
    right_const]. *)
Definition satisfies (lc lk rc rk y : Z) : Prop :=
  lc * y + lk = rc * y + rk.

(** ** Tactics *)


(** Case analysis on the term the goal processes next. *)
Ltac case_process_term :=
  match goal with
  | |- context [process_term ?s ?b ?x ?k] =>
      destruct (process_term s b x k) as [[? ?]|?]; simpl
  end.

(** Rewrites with the lookup, and the sign test, that [funelim] leaves
    in the context. *)
Ltac rewrite_lookup :=
  match goal with E : String.get _ _ = _ |- _ => rewrite E end;
  try match goal with E : is_sign _ = _ |- _ => rewrite E end.

(** ** Strings *)

Lemma append_nil_r (s : string) : s ++ "" = s.
Proof. induction s as [|c s IH]; simpl; [reflexivity | now rewrite IH]. Qed.

Lemma append_assoc (a b c : string) : (a ++ b) ++ c = a ++ (b ++ c).
Proof. induction a as [|x a IH]; simpl; [reflexivity | now rewrite IH]. Qed.

Lemma length_app (a b : string) :
  String.length (a ++ b) = (String.length a + String.length b)%nat.
Proof. induction a as [|x a IH]; simpl; [reflexivity | now rewrite IH]. Qed.


Lemma get_app_here (pre : string) (c : ascii) (r : string) :
  String.get (String.length pre) (pre ++ String c r) = Some c.
Proof. induction pre as [|x pre IH]; simpl; [reflexivity | exact IH]. Qed.

Lemma get_app_end (pre : string) :
  String.get (String.length pre) (pre ++ "") = None.
Proof. induction pre as [|x pre IH]; simpl; [reflexivity | exact IH]. Qed.

Section AllChars.

Variable f : ascii -> bool.

Lemma all_chars_app (a b : string) :
  all_chars f (a ++ b) = all_chars f a && all_chars f b.
Proof.
  induction a as [|x a IH]; simpl; [reflexivity|].
  now rewrite IH, andb_assoc.
Qed.



End AllChars.

Section OneChar.

Variable c : ascii.

Lemma remove_char_app (a b : string) :
  Py.remove_char c (a ++ b) = Py.remove_char c a ++ Py.remove_char c b.
Proof.
  induction a as [|x a IH]; simpl; [reflexivity|].
  destruct (Ascii.eqb x c); simpl; now rewrite IH.
Qed.

Lemma remove_char_absent (s : string) :
  Py.contains c s = false -> Py.remove_char c s = s.
Proof.
  induction s as [|x s IH]; simpl; [reflexivity|].
  destruct (Ascii.eqb x c); simpl; [discriminate|].
  intros H. now rewrite IH.
Qed.

Lemma contains_remove_char (s : string) :
  Py.contains c (Py.remove_char c s) = false.
Proof.
  induction s as [|x s IH]; simpl; [reflexivity|].
  destruct (Ascii.eqb x c) eqn:E; simpl; [exact IH|].
  now rewrite E, IH.
Qed.

Lemma remove_char_idem (s : string) :
  Py.remove_char c (Py.remove_char c s) = Py.remove_char c s.
Proof. apply remove_char_absent, contains_remove_char. Qed.


End OneChar.

(** ** Splitting on ['='] *)

Lemma split_length (sep : ascii) (s : string) :
  List.length (Py.split sep s) = S (count_char sep s).
Proof.
  induction s as [|a s IH]; simpl; [reflexivity|].
  destruct (Ascii.eqb a sep); simpl; [now rewrite IH|].
  destruct (Py.split sep s) as [|piece pieces]; simpl in *; [discriminate|].
  exact IH.
Qed.

Lemma unpack2_length (pieces : list string) :
  List.length pieces <> 2%nat -> Py.unpack2 pieces = Raise ValueError.
Proof.
  destruct pieces as [|l [|r [|x pieces]]]; simpl; intros H;
    try reflexivity. now contradiction H.
Qed.

(** ** The built-ins on examples *)

Example int_examples :
  Py.int "42" = Ok 42 /\ Py.int "010" = Ok 10 /\ Py.int " 5 " = Ok 5 /\
  Py.int "-5" = Ok (-5) /\ Py.int "1_0" = Ok 10 /\
  Py.int (String "009" "5") = Ok 5 /\
  Py.int "" = Raise ValueError /\ Py.int "+" = Raise ValueError /\
  Py.int "+ 5" = Raise ValueError /\ Py.int "5 5" = Raise ValueError /\
  Py.int "1__0" = Raise ValueError /\ Py.int "_1" = Raise ValueError /\
  Py.int "1_" = Raise ValueError /\ Py.int "2a" = Raise ValueError /\
  Py.int (String "009" "") = Raise ValueError /\
  Py.int (String "028" "5") = Raise ValueError.
Proof. repeat split; vm_compute; reflexivity. Qed.

Example split_examples :
  Py.split "=" "a=b" = ["a"; "b"] /\ Py.split "=" "=" = [""; ""] /\
  Py.split "=" "" = [""] /\ Py.split "=" "a==b" = ["a"; ""; "b"].
Proof. repeat split; reflexivity. Qed.

Example str_examples :
  Py.str 0 = "0" /\ Py.str 42 = "42" /\ Py.str (-12) = "-12".
Proof. repeat split; reflexivity. Qed.

(** ** The loops, one iteration at a time *)

Lemma scan_term_step (expr : string) (i : nat) (term : string) :
  scan_term expr i term =
  match String.get i expr with
  | Some c => if is_sign c then (term, i)
              else scan_term expr (S i) (term ++ String c "")
  | None => (term, i)
  end.
Proof.
  funelim (scan_term expr i term); rewrite_lookup; reflexivity.
Qed.

Lemma parse_loop_step (expr : string) (i : nat) (x_coeff constant : Z) :
  parse_loop expr i x_coeff constant =
  match String.get i expr with
  | None => Ok (x_coeff, constant)
  | Some c =>
      '(x_coeff', constant') <-
        process_term (sign_of c) (fst (scan_term expr (S i) "")) x_coeff constant ;;
      parse_loop expr (snd (scan_term expr (S i) "")) x_coeff' constant'
  end.
Proof.
  funelim (parse_loop expr i x_coeff constant); rewrite_lookup; reflexivity.
Qed.



(** ** The scan of a side reads its terms *)

Lemma scan_term_app (body pre rest term : string) :
  sign_free body = true -> at_boundary rest = true ->
  scan_term (pre ++ body ++ rest) (String.length pre) term =
  (term ++ body, (String.length pre + String.length body)%nat).
Proof.
  revert pre term.
  induction body as [|b body IH]; intros pre term Hfree Hrest; simpl.
  - rewrite scan_term_step, append_nil_r, Nat.add_0_r.
    destruct rest as [|c r]; simpl in Hrest.
    + now rewrite get_app_end.
    + now rewrite get_app_here, Hrest.
  - unfold sign_free in Hfree. simpl in Hfree.
    apply andb_true_iff in Hfree as [Hb Hfree].
    apply negb_true_iff in Hb.
    rewrite scan_term_step, get_app_here, Hb.
    specialize (IH (pre ++ String b "") (term ++ String b "") Hfree Hrest).
    rewrite append_assoc, length_app in IH. simpl in IH.
    replace (S (String.length pre)) with (String.length pre + 1)%nat by lia.
    rewrite IH, append_assoc. simpl. f_equal. lia.
Qed.

Lemma render_at_boundary (ts : list term) :
  forallb is_term ts = true -> at_boundary (render ts) = true.
Proof.
  destruct ts as [|[sc body] ts]; simpl; [reflexivity|].
  unfold is_term; simpl. rewrite !andb_true_iff. tauto.
Qed.

Lemma parse_loop_render (ts : list term) :
  forallb is_term ts = true ->
  forall (pre : string) (x_coeff constant : Z),
    parse_loop (pre ++ render ts) (String.length pre) x_coeff constant =
    sum_terms ts x_coeff constant.
Proof.
  induction ts as [|[sc body] ts IH]; intros Hts pre x_coeff constant; simpl.
  - now rewrite parse_loop_step, get_app_end.
  - simpl in Hts. apply andb_true_iff in Hts as [Ht Hts].
    unfold is_term in Ht; simpl in Ht. apply andb_true_iff in Ht as [_ Hbody].
    rewrite parse_loop_step, get_app_here.
    pose proof (scan_term_app body (pre ++ String sc "") (render ts) ""
                  Hbody (render_at_boundary ts Hts)) as Hscan.
    rewrite append_assoc, length_app in Hscan. simpl in Hscan.
    replace (S (String.length pre)) with (String.length pre + 1)%nat by lia.
    rewrite Hscan. simpl.
    case_process_term; [|reflexivity].
    specialize (IH Hts ((pre ++ String sc "") ++ body)).
    rewrite !append_assoc, !length_app in IH. simpl in IH.
    replace (String.length pre + 1 + String.length body)%nat
      with (String.length pre + S (String.length body))%nat by lia.
    apply IH.
Qed.

Lemma render_tokens_from (s : string) (sc : ascii) (body : string) :
  render (tokens_from s sc body) = String sc (body ++ s).
Proof.
  revert sc body. induction s as [|c s IH]; intros sc body; simpl.
  - reflexivity.
  - destruct (is_sign c); simpl; rewrite IH; [reflexivity|].
    now rewrite append_assoc.
Qed.

(** The terms of a side are the side: written one after the other they
    give back the string the loop scans. *)
Lemma render_tokens (s : string) : render (tokens s) = s.
Proof.
  destruct s as [|c r]; simpl; [reflexivity|].
  now rewrite render_tokens_from.
Qed.

Lemma tokens_from_are_terms (s : string) (sc : ascii) (body : string) :
  is_sign sc = true -> sign_free body = true ->
  forallb is_term (tokens_from s sc body) = true.
Proof.
  revert sc body. induction s as [|c s IH]; intros sc body Hsc Hbody; simpl.
  - unfold is_term; simpl. now rewrite Hsc, Hbody.
  - destruct (is_sign c) eqn:Hc; simpl.
    + unfold is_term at 1; simpl. rewrite Hsc, Hbody. simpl.
      now apply IH.
    + apply IH; [assumption|].
      unfold sign_free in *. rewrite all_chars_app, Hbody. simpl.
      now rewrite Hc.
Qed.

Lemma parse_loop_tokens (c : ascii) (r : string) (x_coeff constant : Z) :
  is_sign c = true ->
  parse_loop (String c r) 0 x_coeff constant =
  sum_terms (tokens (String c r)) x_coeff constant.
Proof.
  intros Hc.
  pose proof (parse_loop_render (tokens (String c r))) as H.
  simpl in H.
  specialize (H (tokens_from_are_terms r c "" Hc eq_refl) "" x_coeff constant).
  rewrite render_tokens_from in H. exact H.
Qed.

(** [parse_expression] adds up the terms of the normalized side; a side
    that is empty once its spaces are removed makes [expr[0]] raise. *)
Lemma parse_expression_terms (expr : string) :
  parse_expression expr =
  match normalize expr with
  | EmptyString => Raise IndexError
  | String _ _ as e => sum_terms (tokens e) 0 0
  end.
Proof.
  unfold parse_expression, normalize.
  destruct (Py.remove_char " " expr) as [|c0 r]; simpl; [reflexivity|].
  destruct (is_sign c0) eqn:Hc; simpl negb; cbv iota;
    now rewrite parse_loop_tokens.
Qed.

Lemma parse_expression_empty (expr : string) :
  Py.remove_char " " expr = "" -> parse_expression expr = Raise IndexError.
Proof. unfold parse_expression. now intros ->. Qed.

(** ** [int] on strings of digits *)




(** ** Terms made of digits and the variable *)











(** ** Sides of digits, [x] and signs *)

Lemma tokens_from_nonempty (s : string) (sc : ascii) (body : string) :
  tokens_from s sc body <> [].
Proof.
  revert sc body. induction s as [|c s IH]; intros sc body; simpl.
  - discriminate.
  - destruct (is_sign c); [discriminate | apply IH].
Qed.


Lemma tokens_from_sign_free (s : string) (sc : ascii) (body : string) :
  sign_free s = true -> tokens_from s sc body = [(sc, body ++ s)].
Proof.
  revert body. induction s as [|c s IH]; intros body H; simpl.
  - now rewrite append_nil_r.
  - unfold sign_free in H; simpl in H. apply andb_true_iff in H as [Hc Hs].
    apply negb_true_iff in Hc. rewrite Hc, (IH _ Hs), append_assoc.
    reflexivity.
Qed.





(** ** Classification *)

Section Rearranged.

Variables (equation l r : string) (lc lk rc rk : Z).
Hypothesis Hsplit : Py.split "=" equation = [l; r].
Hypothesis Hleft : parse_expression l = Ok (lc, lk).
Hypothesis Hright : parse_expression r = Ok (rc, rk).

Lemma solve_equation_rearranged :
  solve_equation equation =
  if lc - rc =? 0 then
    if rk - lk =? 0 then Ok "Infinite solutions" else Ok "No solution"
  else Ok ("x=" ++ Py.str ((rk - lk) / (lc - rc))).
Proof.
  unfold solve_equation.
  rewrite Hsplit. simpl. rewrite Hleft. simpl. rewrite Hright. reflexivity.
Qed.


End Rearranged.





(** Rounding toward minus infinity differs from truncation toward zero
    when the signs differ and the division is inexact: ["-2x=3"] gives
    [-2], where truncation would give [-1]. *)
Example solve_equation_floors :
  solve_equation "-2x=3" = Ok "x=-2" /\ Z.quot 3 (-2) = -1.
Proof. split; vm_compute; reflexivity. Qed.

(** ** The floor-division contract *)




(** ** Malformed equations *)

(** C3: an equation string with no ['='] or with two or more is
    rejected: unpacking the pieces of the split into [left, right]
    raises [ValueError] before either side is parsed, so none of the
    three outcomes is returned. *)
Theorem solve_equation_rejects_wrong_equals_count (equation : string) :
  count_char "=" equation <> 1%nat ->
  solve_equation equation = Raise ValueError /\
  forall o : SolveResult, solve_equation equation <> Ok (show o).
Proof.
  intros Hcount.
  assert (H : solve_equation equation = Raise ValueError).
  { unfold solve_equation. rewrite unpack2_length; [reflexivity|].
    rewrite split_length. lia. }
  split; [exact H|]. intros o. rewrite H. discriminate.
Qed.

Lemma solve_equation_rejects_wrong_equals_count_witness :
  (count_char "=" "x+1" <> 1%nat /\
   solve_equation "x+1" = Raise ValueError /\
   forall o : SolveResult, solve_equation "x+1" <> Ok (show o)) /\
  (count_char "=" "x=1=2" <> 1%nat /\
   solve_equation "x=1=2" = Raise ValueError /\
   forall o : SolveResult, solve_equation "x=1=2" <> Ok (show o)).
Proof.
  split.
  - split; [simpl; lia|].
    apply (solve_equation_rejects_wrong_equals_count "x+1"). simpl. lia.
  - split; [simpl; lia|].
    apply (solve_equation_rejects_wrong_equals_count "x=1=2"). simpl. lia.
Defined.

(** ** Two signs in a row *)

Lemma sum_terms_skip_sign (a b : string) (s1 s2 sc : ascii) (body : string)
    (x_coeff constant : Z) :
  is_sign s1 = true -> is_sign s2 = true ->
  sum_terms (tokens_from (a ++ String s1 (String s2 b)) sc body) x_coeff constant =
  sum_terms (tokens_from (a ++ String s2 b) sc body) x_coeff constant.
Proof.
  intros H1 H2. revert sc body x_coeff constant.
  induction a as [|c a IH]; intros sc body x_coeff constant; simpl.
  - rewrite H1, H2. simpl. case_process_term; reflexivity.
  - destruct (is_sign c); simpl.
    + case_process_term; [apply IH | reflexivity].
    + apply IH.
Qed.

Lemma sign_not_space (c : ascii) :
  is_sign c = true -> Ascii.eqb c " " = false.
Proof.
  unfold is_sign. intros H. apply orb_true_iff in H as [H|H];
    apply Ascii.eqb_eq in H; now subst c.
Qed.

(** C4 as the code has it: a sign that is followed at once by another
    sign starts a term with an empty body, which adds nothing and
    raises nothing; the side parses like the same side without the
    first of the two signs. *)
Theorem parse_expression_skips_empty_term (a b : string) (s1 s2 : ascii) :
  is_sign s1 = true -> is_sign s2 = true ->
  parse_expression (a ++ String s1 (String s2 b)) =
  parse_expression (a ++ String s2 b).
Proof.
  intros H1 H2. rewrite !parse_expression_terms. unfold normalize.
  rewrite !remove_char_app. simpl.
  rewrite (sign_not_space s1 H1), (sign_not_space s2 H2).
  destruct (Py.remove_char " " a) as [|c0 a'] eqn:Ha; simpl.
  - rewrite H1, H2. simpl. rewrite H2. simpl. reflexivity.
  - destruct (is_sign c0) eqn:Hc0; simpl.
    + now apply sum_terms_skip_sign.
    + rewrite Hc0. now apply sum_terms_skip_sign.
Qed.

Lemma parse_expression_skips_empty_term_witness :
  is_sign "+" = true /\ is_sign "+" = true /\
  parse_expression ("x" ++ String "+" (String "+" "5")) =
  parse_expression ("x" ++ String "+" "5").
Proof.
  split; [reflexivity|]. split; [reflexivity|].
  apply (parse_expression_skips_empty_term "x" "5" "+" "+"); reflexivity.
Defined.

(** C4 fails on ["x++5=0"]: no failure is raised, the side ["x++5"]
    parses to the pair of ["x+5"], and the equation is solved. *)
Lemma double_sign_not_rejected :
  parse_expression "x++5" = Ok (1, 5) /\
  parse_expression "x++5" = parse_expression "x+5" /\
  solve_equation "x++5=0" = Ok "x=-5".
Proof. repeat split; vm_compute; reflexivity. Qed.

(** ** The scenarios of the test list *)

(** C5: the eight scenarios of the module's own test list give the
    outputs listed there. *)
Theorem solve_equation_scenarios :
  solve_equation "x+5-3+x=6+x-2" = Ok "x=2" /\
  solve_equation "x=x" = Ok "Infinite solutions" /\
  solve_equation "2x=x" = Ok "x=0" /\
  solve_equation "2x+3=x+1" = Ok "x=-2" /\
  solve_equation "x+1=x+2" = Ok "No solution" /\
  solve_equation "3x-2=3x-2" = Ok "Infinite solutions" /\
  solve_equation "x=5" = Ok "x=5" /\
  solve_equation "2x=8" = Ok "x=4".
Proof. repeat split; vm_compute; reflexivity. Qed.

(** ** Order of the terms *)



(** ** A term with the variable *)




(** ** Totality *)

Lemma to_int_not_nil (n : Z) :
  Z.to_int n <> Decimal.Pos Decimal.Nil /\ Z.to_int n <> Decimal.Neg Decimal.Nil.
Proof.
  destruct n as [|p|p]; simpl; split; try discriminate;
    intros H; injection H as H;
    exact (DecimalPos.Unsigned.to_uint_nonnil p H).
Qed.

Lemma str_inj (a b : Z) : Py.str a = Py.str b -> a = b.
Proof.
  unfold Py.str. intros H.
  apply (f_equal NilZero.int_of_string) in H.
  destruct (to_int_not_nil a) as [Ha1 Ha2].
  destruct (to_int_not_nil b) as [Hb1 Hb2].
  rewrite !NilZero.isi in H by assumption.
  injection H as H. now apply DecimalZ.to_int_inj.
Qed.




(** ** White space *)

(** C9 as the code has it: only the space character is removed before
    the scan, so a side parses like the same side without its spaces. *)
Theorem parse_expression_ignores_spaces (expr : string) :
  parse_expression expr = parse_expression (Py.remove_char " " expr).
Proof.
  unfold parse_expression. now rewrite remove_char_idem.
Qed.

(** C9 fails for the tab character (code point 9): a tab before [x]
    stays in the term, reaches [int] as the coefficient string and
    raises [ValueError], while the side without the tab parses. *)
Lemma parse_expression_keeps_tab :
  parse_expression (String "009" "x") = Raise ValueError /\
  parse_expression (Py.remove_char "009" (String "009" "x")) = Ok (1, 0) /\
  parse_expression (String "009" "x") <>
  parse_expression (Py.remove_char "009" (String "009" "x")).
Proof.
  split; [|split]; vm_compute; first [reflexivity | discriminate].
Qed.

(** ** Empty sides *)

(** C10: when a side of the equation is empty once its spaces are
    removed, [solve_equation] raises instead of returning an outcome:
    [expr[0]] raises [IndexError] on the empty side, unless parsing the
    left side has raised already. *)
Theorem solve_equation_empty_side (equation l r : string) :
  Py.split "=" equation = [l; r] ->
  Py.remove_char " " l = "" \/ Py.remove_char " " r = "" ->
  exists e : exn,
    solve_equation equation = Raise e /\
    (Py.remove_char " " l = "" -> e = IndexError) /\
    (forall p, parse_expression l = Ok p -> e = IndexError).
Proof.
  intros Hsplit Hempty. unfold solve_equation. rewrite Hsplit. simpl.
  destruct (parse_expression l) as [[lc lk]|e] eqn:Hl; simpl.
  - destruct Hempty as [Hle|Hre].
    + rewrite (parse_expression_empty l Hle) in Hl. discriminate.
    + rewrite (parse_expression_empty r Hre). simpl.
      exists IndexError. repeat split; reflexivity.
  - exists e. split; [reflexivity|]. split.
    + intros Hle. rewrite (parse_expression_empty l Hle) in Hl. congruence.
    + intros p Hp. discriminate.
Qed.

Lemma solve_equation_empty_side_witness :
  Py.split "=" "x=" = ["x"; ""] /\
  (Py.remove_char " " "x" = "" \/ Py.remove_char " " "" = "") /\
  exists e : exn,
    solve_equation "x=" = Raise e /\
    (Py.remove_char " " "x" = "" -> e = IndexError) /\
    (forall p, parse_expression "x" = Ok p -> e = IndexError).
Proof.
  split; [reflexivity|]. split; [right; reflexivity|].
  apply (solve_equation_empty_side "x=" "x" "").
  - reflexivity.
  - right. reflexivity.
Defined.

(** The three examples of empty sides all raise [IndexError]. *)
Example solve_equation_empty_side_examples :
  solve_equation "=5" = Raise IndexError /\
  solve_equation "x=" = Raise IndexError /\
  solve_equation "=" = Raise IndexError.
Proof. repeat split; vm_compute; reflexivity. Qed.

(** * Further properties of the parser and the solver *)

(** ** Exceptions of [int] and of the loop *)

Lemma int_raises_value_error (s : string) (e : exn) :
  Py.int s = Raise e -> e = ValueError.
Proof.
  unfold Py.int.
  repeat match goal with
         | |- context [match ?x with _ => _ end] => destruct x
         end; congruence.
Qed.

Lemma process_term_raises_value_error
    (sign : Z) (body : string) (x_coeff constant : Z) (e : exn) :
  process_term sign body x_coeff constant = Raise e -> e = ValueError.
Proof.
  unfold process_term.
  destruct (Py.contains "x" body).
  - destruct (_ || _); [discriminate|].
    destruct (String.eqb _ "-"); [discriminate|].
    destruct (Py.int _) eqn:Hint; simpl; [discriminate|].
    intros H. injection H as <-. exact (int_raises_value_error _ _ Hint).
  - destruct (negb _); [|discriminate].
    destruct (Py.int body) eqn:Hint; simpl; [discriminate|].
    intros H. injection H as <-. exact (int_raises_value_error _ _ Hint).
Qed.

Lemma sum_terms_raises_value_error
    (ts : list term) (x_coeff constant : Z) (e : exn) :
  sum_terms ts x_coeff constant = Raise e -> e = ValueError.
Proof.
  revert x_coeff constant.
  induction ts as [|[sc body] ts IH]; intros x_coeff constant; simpl.
  - discriminate.
  - destruct (process_term (sign_of sc) body x_coeff constant)
      as [[xc k]|e'] eqn:Hp; simpl.
    + apply IH.
    + intros H. injection H as <-.
      exact (process_term_raises_value_error _ _ _ _ _ Hp).
Qed.

Lemma normalize_empty (expr : string) :
  normalize expr = "" <-> Py.remove_char " " expr = "".
Proof.
  unfold normalize. destruct (Py.remove_char " " expr) as [|c r].
  - tauto.
  - destruct (negb (is_sign c)); split; discriminate.
Qed.

(** ** The characters [int] accepts *)









Lemma tokens_are_terms (expr : string) :
  forallb is_term (tokens (normalize expr)) = true.
Proof.
  unfold normalize.
  destruct (Py.remove_char " " expr) as [|c0 r]; [reflexivity|].
  destruct (is_sign c0) eqn:Hc0; simpl.
  - now apply tokens_from_are_terms.
  - rewrite Hc0. apply tokens_from_are_terms; [reflexivity|].
    unfold sign_free. simpl. now rewrite Hc0.
Qed.



(** ** What the parser computes, and when it raises *)

(** X1: [parse_expression] reads the side, once its spaces are removed
    and a leading ['+'] is supplied, as a sequence of terms, each a sign
    followed by a body without signs; written one after the other the
    terms give that string back.  The result is their contributions
    added from left to right, and [IndexError] when there is no term. *)
Theorem parse_expression_sums_terms (expr : string) :
  render (tokens (normalize expr)) = normalize expr /\
  forallb is_term (tokens (normalize expr)) = true /\
  parse_expression expr =
  match tokens (normalize expr) with
  | [] => Raise IndexError
  | (_ :: _) as ts => sum_terms ts 0 0
  end.
Proof.
  split; [apply render_tokens|]. split; [apply tokens_are_terms|].
  rewrite parse_expression_terms.
  destruct (normalize expr) as [|c r]; [reflexivity|].
  pose proof (tokens_from_nonempty r c "") as Hne. unfold tokens.
  destruct (tokens_from r c "") as [|t ts]; [now contradiction Hne|].
  reflexivity.
Qed.

(** X2: started just after a sign, the inner loop appends to [term] the
    characters up to the next sign or the end of the string, and leaves
    the index there. *)
Theorem scan_term_reads_body (pre body rest term : string) :
  sign_free body = true -> at_boundary rest = true ->
  scan_term (pre ++ body ++ rest) (String.length pre) term =
  (term ++ body, (String.length pre + String.length body)%nat).
Proof. intros Hbody Hrest. now apply scan_term_app. Qed.

Lemma scan_term_reads_body_witness :
  sign_free "2x" = true /\ at_boundary "-3" = true /\
  scan_term ("+" ++ "2x" ++ "-3") (String.length "+") "" = ("2x", 3%nat).
Proof.
  split; [reflexivity|]. split; [reflexivity|].
  apply (scan_term_reads_body "+" "2x" "-3" ""); reflexivity.
Defined.

Lemma parse_expression_index_error (expr : string) :
  parse_expression expr = Raise IndexError -> Py.remove_char " " expr = "".
Proof.
  rewrite parse_expression_terms, <- normalize_empty.
  destruct (normalize expr) as [|c r]; [reflexivity|].
  intros H. apply sum_terms_raises_value_error in H. discriminate.
Qed.

(** X3: [parse_expression] raises [IndexError] exactly when the side is
    empty once its spaces are removed; every other failure is a
    [ValueError] from [int]. *)
Theorem parse_expression_index_error_iff (expr : string) :
  parse_expression expr = Raise IndexError <-> Py.remove_char " " expr = "".
Proof.
  split; [apply parse_expression_index_error | apply parse_expression_empty].
Qed.



(** ** How the accumulators add up *)

(** What a term adds does not depend on what has been added before, and
    the sign only multiplies it. *)
Lemma process_term_linear (sign : Z) (body : string) (x_coeff constant : Z) :
  process_term sign body x_coeff constant =
  '(c, d) <- process_term 1 body 0 0 ;;
  Ok (x_coeff + sign * c, constant + sign * d).
Proof.
  unfold process_term. destruct (Py.contains "x" body).
  - destruct (if _ || _ then _ else _) as [v|e]; unfold bind;
      [|reflexivity].
    f_equal. f_equal; lia.
  - destruct (negb (String.eqb body "")).
    + destruct (Py.int body) as [v|e]; unfold bind; [|reflexivity].
      f_equal. f_equal; lia.
    + unfold bind. f_equal. f_equal; lia.
Qed.

Lemma sum_terms_shift (ts : list term) (x_coeff constant : Z) :
  sum_terms ts x_coeff constant =
  '(c, d) <- sum_terms ts 0 0 ;; Ok (x_coeff + c, constant + d).
Proof.
  revert x_coeff constant.
  induction ts as [|[sc body] ts IH]; intros x_coeff constant; simpl.
  - f_equal. f_equal; lia.
  - rewrite (process_term_linear (sign_of sc) body 0 0).
    rewrite (process_term_linear (sign_of sc) body x_coeff constant).
    destruct (process_term 1 body 0 0) as [[c d]|e]; simpl; [|reflexivity].
    rewrite (IH (x_coeff + sign_of sc * c) (constant + sign_of sc * d)).
    rewrite (IH (sign_of sc * c) (sign_of sc * d)).
    destruct (sum_terms ts 0 0) as [[c' d']|e]; simpl; [|reflexivity].
    f_equal. f_equal; lia.
Qed.

Lemma sum_terms_app (ts1 ts2 : list term) (x_coeff constant : Z) :
  sum_terms (ts1 ++ ts2) x_coeff constant =
  '(c, d) <- sum_terms ts1 x_coeff constant ;; sum_terms ts2 c d.
Proof.
  revert x_coeff constant.
  induction ts1 as [|[sc body] ts1 IH]; intros x_coeff constant; simpl.
  - reflexivity.
  - case_process_term; [apply IH | reflexivity].
Qed.

Lemma sum_terms_permutation (ts ts' : list term) :
  Permutation ts ts' ->
  forall x_coeff constant : Z,
    sum_terms ts x_coeff constant = sum_terms ts' x_coeff constant.
Proof.
  induction 1 as [|[sc b] l l' _ IH|[sc b] [sc' b'] l|l l' l'' _ IH1 _ IH2];
    intros x_coeff constant; simpl.
  - reflexivity.
  - case_process_term; [apply IH | reflexivity].
  - destruct (process_term (sign_of sc') b' x_coeff constant)
      as [[c1 d1]|e1] eqn:H1;
      destruct (process_term (sign_of sc) b x_coeff constant)
      as [[c2 d2]|e2] eqn:H2; simpl.
    + rewrite process_term_linear in H1, H2.
      rewrite (process_term_linear _ b c1 d1).
      rewrite (process_term_linear _ b' c2 d2).
      destruct (process_term 1 b 0 0) as [[c d]|e];
        destruct (process_term 1 b' 0 0) as [[c' d']|e'];
        simpl in *; try discriminate.
      injection H1 as <- <-. injection H2 as <- <-.
      f_equal; lia.
    + rewrite process_term_linear in H2. rewrite process_term_linear.
      destruct (process_term 1 b 0 0) as [[c d]|e]; simpl in *;
        [discriminate | congruence].
    + rewrite process_term_linear in H1. rewrite process_term_linear.
      destruct (process_term 1 b' 0 0) as [[c d]|e]; simpl in *;
        [discriminate | congruence].
    + apply process_term_raises_value_error in H1, H2. congruence.
  - now rewrite IH1, IH2.
Qed.

Lemma tokens_from_app_sign (a r : string) (s sc : ascii) (body : string) :
  is_sign s = true ->
  tokens_from (a ++ String s r) sc body =
  (tokens_from a sc body ++ tokens_from r s "")%list.
Proof.
  intros Hs. revert sc body.
  induction a as [|c a IH]; intros sc body; simpl.
  - now rewrite Hs.
  - destruct (is_sign c); simpl; now rewrite IH.
Qed.

Lemma normalize_app_sign (a b : string) (s : ascii) :
  Py.remove_char " " a <> "" -> is_sign s = true ->
  normalize (a ++ String s b) =
  normalize a ++ String s (Py.remove_char " " b).
Proof.
  intros Ha Hs. unfold normalize. rewrite remove_char_app. simpl.
  rewrite (sign_not_space s Hs).
  destruct (Py.remove_char " " a) as [|c0 r]; [congruence|].
  simpl. destruct (negb (is_sign c0)); reflexivity.
Qed.

Lemma normalize_empty_not (expr : string) :
  Py.remove_char " " expr <> "" -> normalize expr <> "".
Proof. intros H Hn. apply H. now apply normalize_empty. Qed.

(** A side followed by a sign and more: the side is summed first, what
    follows the sign is summed onto it. *)
Lemma parse_expression_app_sign (a b : string) (s : ascii) :
  Py.remove_char " " a <> "" -> is_sign s = true ->
  parse_expression (a ++ String s b) =
  '(c, d) <- parse_expression a ;;
  sum_terms (tokens_from (Py.remove_char " " b) s "") c d.
Proof.
  intros Ha Hs.
  rewrite !parse_expression_terms, (normalize_app_sign a b s Ha Hs).
  pose proof (normalize_empty_not a Ha) as Hn.
  destruct (normalize a) as [|c r]; [congruence|]. clear Hn.
  simpl append. unfold tokens.
  rewrite (tokens_from_app_sign r _ s c "" Hs).
  apply sum_terms_app.
Qed.

Lemma plus_tokens (b : string) (x_coeff constant : Z) :
  Py.remove_char " " b <> "" ->
  sum_terms (tokens_from (Py.remove_char " " b) "+" "") x_coeff constant =
  sum_terms (tokens (normalize b)) x_coeff constant.
Proof.
  unfold normalize.
  destruct (Py.remove_char " " b) as [|d br]; [congruence|]. intros _.
  destruct (is_sign d) eqn:Hd; simpl; rewrite Hd; reflexivity.
Qed.

Lemma all_chars_remove_char (f : ascii -> bool) (c : ascii) (s : string) :
  all_chars f s = true -> all_chars f (Py.remove_char c s) = true.
Proof.
  induction s as [|x s IH]; simpl; [reflexivity|].
  rewrite andb_true_iff. intros [Hx Hs].
  destruct (Ascii.eqb x c); simpl; [auto|].
  now rewrite Hx, IH.
Qed.

Lemma parse_expression_nonempty (expr : string) :
  Py.remove_char " " expr <> "" ->
  parse_expression expr = sum_terms (tokens (normalize expr)) 0 0.
Proof.
  intros H. rewrite parse_expression_terms.
  pose proof (normalize_empty_not expr H) as Hn.
  destruct (normalize expr); [congruence | reflexivity].
Qed.

Lemma parse_expression_sign_free (t : string) :
  Py.remove_char " " t <> "" -> sign_free t = true ->
  parse_expression t = process_term 1 (Py.remove_char " " t) 0 0.
Proof.
  intros Hne Hfree. rewrite (parse_expression_nonempty t Hne).
  apply (all_chars_remove_char _ " ") in Hfree.
  unfold normalize.
  destruct (Py.remove_char " " t) as [|c0 r] eqn:Ht; [congruence|].
  assert (Hc0 : is_sign c0 = false).
  { simpl in Hfree. apply andb_true_iff in Hfree as [Hc _].
    now apply negb_true_iff in Hc. }
  rewrite Hc0. simpl negb. cbv iota. unfold tokens.
  rewrite (tokens_from_sign_free _ _ _ Hfree). simpl.
  change (sign_of "+") with 1.
  destruct (process_term 1 (String c0 r) 0 0) as [[c d]|e]; reflexivity.
Qed.

(** ** Sides put together *)

(** X5: two sides joined by ['+'] parse to the sum of their pairs; when
    one of them raises, so does the joined side, the left one first. *)
Theorem parse_expression_plus (a b : string) :
  Py.remove_char " " a <> "" -> Py.remove_char " " b <> "" ->
  parse_expression (a ++ String "+" b) =
  '(c1, k1) <- parse_expression a ;;
  '(c2, k2) <- parse_expression b ;;
  Ok (c1 + c2, k1 + k2).
Proof.
  intros Ha Hb.
  rewrite (parse_expression_app_sign a b "+" Ha eq_refl).
  destruct (parse_expression a) as [[c1 k1]|e]; simpl; [|reflexivity].
  rewrite (plus_tokens b c1 k1 Hb), sum_terms_shift.
  now rewrite <- (parse_expression_nonempty b Hb).
Qed.

Lemma parse_expression_plus_witness :
  Py.remove_char " " "2x-3" <> "" /\ Py.remove_char " " "-x+4" <> "" /\
  parse_expression ("2x-3" ++ String "+" "-x+4") = Ok (1, 1).
Proof.
  split; [discriminate|]. split; [discriminate|].
  apply (parse_expression_plus "2x-3" "-x+4"); discriminate.
Defined.

Lemma parse_expression_app_term (a t : string) (s : ascii) :
  Py.remove_char " " a <> "" -> Py.remove_char " " t <> "" ->
  is_sign s = true -> sign_free t = true ->
  parse_expression (a ++ String s t) =
  '(c1, k1) <- parse_expression a ;;
  '(c2, k2) <- parse_expression t ;;
  Ok (c1 + sign_of s * c2, k1 + sign_of s * k2).
Proof.
  intros Ha Ht Hs Hfree.
  rewrite (parse_expression_app_sign a t s Ha Hs).
  rewrite (parse_expression_sign_free t Ht Hfree).
  destruct (parse_expression a) as [[c1 k1]|e]; simpl; [|reflexivity].
  rewrite (tokens_from_sign_free _ s ""
             (all_chars_remove_char _ " " t Hfree)).
  simpl. rewrite process_term_linear.
  destruct (process_term 1 (Py.remove_char " " t) 0 0) as [[c d]|e];
    reflexivity.
Qed.

(** X6: a side followed by a sign and one more term parses to the pair
    of the side plus, or minus, the pair of the term. *)
Theorem parse_expression_signed_term (a t : string) (s : ascii) :
  Py.remove_char " " a <> "" -> Py.remove_char " " t <> "" ->
  is_sign s = true -> sign_free t = true ->
  parse_expression (a ++ String s t) =
  '(c1, k1) <- parse_expression a ;;
  '(c2, k2) <- parse_expression t ;;
  Ok (c1 + sign_of s * c2, k1 + sign_of s * k2).
Proof. apply parse_expression_app_term. Qed.

Lemma parse_expression_signed_term_witness :
  Py.remove_char " " "2x" <> "" /\ Py.remove_char " " "3" <> "" /\
  is_sign "-" = true /\ sign_free "3" = true /\
  parse_expression ("2x" ++ String "-" "3") = Ok (2, -3).
Proof.
  split; [discriminate|]. split; [discriminate|].
  split; [reflexivity|]. split; [reflexivity|].
  apply (parse_expression_signed_term "2x" "3" "-");
    first [discriminate | reflexivity].
Defined.

(** X7: the order of the terms never matters, well-formed side or not:
    two sides with the same terms in any order give the same pair, or
    both raise an exception of the same class. *)
Theorem parse_expression_any_order (expr expr' : string) :
  Permutation (tokens (normalize expr)) (tokens (normalize expr')) ->
  parse_expression expr' = parse_expression expr.
Proof.
  intros Hperm. rewrite !parse_expression_terms.
  destruct (normalize expr) as [|c r] eqn:Hn;
    destruct (normalize expr') as [|c' r'] eqn:Hn'.
  - reflexivity.
  - apply Permutation_nil in Hperm.
    now apply tokens_from_nonempty in Hperm.
  - apply Permutation_sym, Permutation_nil in Hperm.
    now apply tokens_from_nonempty in Hperm.
  - symmetry. now apply sum_terms_permutation.
Qed.

Lemma parse_expression_any_order_witness :
  Permutation (tokens (normalize "x+2y")) (tokens (normalize "2y+x")) /\
  parse_expression "2y+x" = parse_expression "x+2y" /\
  parse_expression "x+2y" = Raise ValueError.
Proof.
  assert (Hperm : Permutation (tokens (normalize "x+2y"))
                              (tokens (normalize "2y+x")))
    by (cbv; apply perm_swap).
  split; [exact Hperm|]. split; [|reflexivity].
  exact (parse_expression_any_order "x+2y" "2y+x" Hperm).
Defined.

(** ** Splitting and joining *)

Lemma split_nonempty (sep : ascii) (s : string) : Py.split sep s <> [].
Proof.
  intros H. apply (f_equal (@List.length string)) in H.
  rewrite split_length in H. discriminate.
Qed.

Lemma split_no_sep (sep : ascii) (s : string) :
  count_char sep s = 0%nat -> Py.split sep s = [s].
Proof.
  induction s as [|a s IH]; simpl; [reflexivity|].
  destruct (Ascii.eqb a sep); simpl; [discriminate|].
  intros H. now rewrite (IH H).
Qed.

Lemma split_app (sep : ascii) (l r : string) :
  count_char sep l = 0%nat ->
  Py.split sep (l ++ String sep r) = l :: Py.split sep r.
Proof.
  induction l as [|a l IH]; simpl.
  - now rewrite Ascii.eqb_refl.
  - destruct (Ascii.eqb a sep); simpl; [discriminate|].
    intros H. now rewrite (IH H).
Qed.

Lemma split_join (sep : ascii) (l r : string) :
  count_char sep l = 0%nat -> count_char sep r = 0%nat ->
  Py.split sep (l ++ String sep r) = [l; r].
Proof.
  intros Hl Hr. now rewrite (split_app sep l r Hl), (split_no_sep sep r Hr).
Qed.

Lemma split_remove_char (sep c : ascii) (s : string) :
  Ascii.eqb c sep = false ->
  Py.split sep (Py.remove_char c s) =
  List.map (Py.remove_char c) (Py.split sep s).
Proof.
  intros Hc. induction s as [|a s IH]; simpl; [reflexivity|].
  pose proof (split_nonempty sep s) as Hne.
  destruct (Ascii.eqb_spec a c) as [->|Hac].
  - rewrite Hc, IH.
    destruct (Py.split sep s) as [|piece pieces]; [congruence|].
    simpl. now rewrite Ascii.eqb_refl.
  - simpl. destruct (Ascii.eqb a sep); simpl; [now rewrite IH|].
    rewrite IH.
    destruct (Py.split sep s) as [|piece pieces]; [congruence|].
    simpl. apply Ascii.eqb_neq in Hac. now rewrite Hac.
Qed.

(** ** Spaces in the equation *)

(** X8: spaces anywhere in the equation change nothing: the equation
    and the equation without its spaces give the same answer, or raise
    an exception of the same class. *)
Theorem solve_equation_ignores_spaces (equation : string) :
  solve_equation (Py.remove_char " " equation) = solve_equation equation.
Proof.
  unfold solve_equation.
  rewrite (split_remove_char "=" " " equation eq_refl).
  destruct (Py.split "=" equation) as [|l [|r [|x pieces]]];
    try reflexivity.
  simpl. unfold parse_expression. now rewrite !remove_char_idem.
Qed.

(** ** What the answers mean *)

Section Answers.

Variables (equation l r : string) (lc lk rc rk : Z).
Hypothesis Hsplit : Py.split "=" equation = [l; r].
Hypothesis Hleft : parse_expression l = Ok (lc, lk).
Hypothesis Hright : parse_expression r = Ok (rc, rk).

(** X9: the answer is "Infinite solutions" exactly when every integer
    solves the equation the two sides stand for. *)
Theorem infinite_solutions_iff :
  solve_equation equation = Ok (show InfiniteSolutions) <->
  forall y : Z, satisfies lc lk rc rk y.
Proof.
  rewrite (solve_equation_rearranged equation l r lc lk rc rk Hsplit Hleft Hright).
  unfold satisfies.
  destruct (Z.eqb_spec (lc - rc) 0) as [Hk|Hk];
    [destruct (Z.eqb_spec (rk - lk) 0) as [Hm|Hm]|]; simpl.
  - split; [|reflexivity]. intros _ y. nia.
  - split; [discriminate|]. intros H. specialize (H 0). lia.
  - split; [discriminate|]. intros H.
    pose proof (H 0). pose proof (H 1). lia.
Qed.

(** X10: the answer is "No solution" exactly when the two sides have the
    same coefficient and different constants, and then no integer solves
    the equation. *)
Theorem no_solution_sound :
  solve_equation equation = Ok (show NoSolution) <->
  lc = rc /\ lk <> rk /\ forall y : Z, ~ satisfies lc lk rc rk y.
Proof.
  rewrite (solve_equation_rearranged equation l r lc lk rc rk Hsplit Hleft Hright).
  unfold satisfies.
  destruct (Z.eqb_spec (lc - rc) 0) as [Hk|Hk];
    [destruct (Z.eqb_spec (rk - lk) 0) as [Hm|Hm]|]; simpl.
  - split; [discriminate | lia].
  - split; [|reflexivity]. intros _.
    split; [lia|]. split; [lia|]. intros y. nia.
  - split; [discriminate | lia].
Qed.

(** X11: when the answer is [x=v], no integer other than [v] solves the
    equation, and [v] itself solves it exactly when the difference of
    the coefficients divides the difference of the constants; when it
    does not, no integer solves the equation and [v] is only the
    quotient rounded down. *)
Theorem unique_solution_sound (v : Z) :
  solve_equation equation = Ok (show (UniqueSolution v)) ->
  (forall y : Z, satisfies lc lk rc rk y -> y = v) /\
  (satisfies lc lk rc rk v <-> (lc - rc | rk - lk)) /\
  (~ (lc - rc | rk - lk) -> forall y : Z, ~ satisfies lc lk rc rk y).
Proof.
  rewrite (solve_equation_rearranged equation l r lc lk rc rk Hsplit Hleft Hright).
  unfold satisfies.
  destruct (Z.eqb_spec (lc - rc) 0) as [Hk|Hk];
    [destruct (Z.eqb_spec (rk - lk) 0); discriminate|].
  intros H. injection H as H. apply str_inj in H. subst v.
  assert (Hsol : forall y, lc * y + lk = rc * y + rk ->
                           y = (rk - lk) / (lc - rc)).
  { intros y Hy. replace (rk - lk) with (y * (lc - rc)) by lia.
    now rewrite Z.div_mul. }
  assert (Hdiv : lc * ((rk - lk) / (lc - rc)) + lk =
                 rc * ((rk - lk) / (lc - rc)) + rk <->
                 (lc - rc | rk - lk)).
  { split.
    - intros Hv. exists ((rk - lk) / (lc - rc)). lia.
    - intros [z Hz]. rewrite Hz, Z.div_mul by exact Hk. lia. }
  split; [exact Hsol|]. split; [exact Hdiv|].
  intros Hndiv y Hy. apply Hndiv, Hdiv.
  now rewrite <- (Hsol y Hy).
Qed.

End Answers.

Lemma infinite_solutions_iff_witness :
  Py.split "=" "3x-2=3x-2" = ["3x-2"; "3x-2"] /\
  parse_expression "3x-2" = Ok (3, -2) /\
  (solve_equation "3x-2=3x-2" = Ok (show InfiniteSolutions) <->
   forall y : Z, satisfies 3 (-2) 3 (-2) y).
Proof.
  split; [reflexivity|]. split; [reflexivity|].
  apply (infinite_solutions_iff "3x-2=3x-2" "3x-2" "3x-2" 3 (-2) 3 (-2));
    reflexivity.
Defined.

Lemma no_solution_sound_witness :
  Py.split "=" "x+1=x+2" = ["x+1"; "x+2"] /\
  parse_expression "x+1" = Ok (1, 1) /\ parse_expression "x+2" = Ok (1, 2) /\
  (solve_equation "x+1=x+2" = Ok (show NoSolution) <->
   1 = 1 /\ 1 <> 2 /\ forall y : Z, ~ satisfies 1 1 1 2 y).
Proof.
  split; [reflexivity|]. split; [reflexivity|]. split; [reflexivity|].
  apply (no_solution_sound "x+1=x+2" "x+1" "x+2" 1 1 1 2); reflexivity.
Defined.

Lemma unique_solution_sound_witness :
  Py.split "=" "2x=3" = ["2x"; "3"] /\
  parse_expression "2x" = Ok (2, 0) /\ parse_expression "3" = Ok (0, 3) /\
  solve_equation "2x=3" = Ok (show (UniqueSolution 1)) /\
  (forall y : Z, satisfies 2 0 0 3 y -> y = 1) /\
  (satisfies 2 0 0 3 1 <-> (2 - 0 | 3 - 0)) /\
  (~ (2 - 0 | 3 - 0) -> forall y : Z, ~ satisfies 2 0 0 3 y).
Proof.
  split; [reflexivity|]. split; [reflexivity|]. split; [reflexivity|].
  split; [reflexivity|].
  apply (unique_solution_sound "2x=3" "2x" "3" 2 0 0 3); reflexivity.
Defined.

(** ** The two sides exchanged *)

(** X12: exchanging the two sides of the equation does not change the
    answer, as long as the two sides do not raise exceptions of
    different classes (the left side is parsed first). *)
Theorem solve_equation_swap_sides (l r : string) :
  count_char "=" l = 0%nat -> count_char "=" r = 0%nat ->
  (forall e e' : exn,
      parse_expression l = Raise e -> parse_expression r = Raise e' ->
      e = e') ->
  solve_equation (r ++ String "=" l) = solve_equation (l ++ String "=" r).
Proof.
  intros Hl Hr Hexn. unfold solve_equation.
  rewrite (split_join "=" l r Hl Hr), (split_join "=" r l Hr Hl). simpl.
  destruct (parse_expression l) as [[lc lk]|e];
    destruct (parse_expression r) as [[rc rk]|e']; simpl;
    try reflexivity.
  - destruct (Z.eqb_spec (rc - lc) 0) as [Hk'|Hk'];
      destruct (Z.eqb_spec (lc - rc) 0) as [Hk|Hk]; try lia.
    + destruct (Z.eqb_spec (lk - rk) 0); destruct (Z.eqb_spec (rk - lk) 0);
        try lia; reflexivity.
    + replace (lk - rk) with (- (rk - lk)) by lia.
      replace (rc - lc) with (- (lc - rc)) by lia.
      now rewrite Z.div_opp_opp.
  - now rewrite (Hexn e e' eq_refl eq_refl).
Qed.

Lemma solve_equation_swap_sides_witness :
  count_char "=" "2x+3" = 0%nat /\ count_char "=" "x+1" = 0%nat /\
  (forall e e' : exn,
      parse_expression "2x+3" = Raise e -> parse_expression "x+1" = Raise e' ->
      e = e') /\
  solve_equation ("x+1" ++ String "=" "2x+3") =
  solve_equation ("2x+3" ++ String "=" "x+1").
Proof.
  split; [reflexivity|]. split; [reflexivity|].
  assert (Hexn : forall e e' : exn,
             parse_expression "2x+3" = Raise e ->
             parse_expression "x+1" = Raise e' -> e = e').
  { intros e e' H. vm_compute in H. discriminate H. }
  split; [exact Hexn|].
  apply (solve_equation_swap_sides "2x+3" "x+1");
    [reflexivity | reflexivity | exact Hexn].
Defined.

(** ** The printed answer read back *)










(** ** A term taken to the other side *)

Lemma count_char_app (c : ascii) (a b : string) :
  count_char c (a ++ b) = (count_char c a + count_char c b)%nat.
Proof.
  induction a as [|x a IH]; simpl; [reflexivity|]. rewrite IH. lia.
Qed.

Lemma parse_expression_raises_value_error (expr : string) (e : exn) :
  Py.remove_char " " expr <> "" ->
  parse_expression expr = Raise e -> e = ValueError.
Proof.
  intros Hne. rewrite (parse_expression_nonempty expr Hne).
  apply sum_terms_raises_value_error.
Qed.

Lemma remove_char_app_nonempty (c : ascii) (a b : string) :
  Py.remove_char c a <> "" -> Py.remove_char c (a ++ b) <> "".
Proof.
  rewrite remove_char_app. destruct (Py.remove_char c a); [congruence|].
  discriminate.
Qed.

(** X15: a term added on the left may be taken to the right with a
    ['-']: [l+t=r] and [l=r-t] give the same answer, or raise an
    exception of the same class. *)
Theorem solve_equation_move_term (l r t : string) :
  count_char "=" l = 0%nat -> count_char "=" r = 0%nat ->
  count_char "=" t = 0%nat ->
  Py.remove_char " " l <> "" -> Py.remove_char " " r <> "" ->
  Py.remove_char " " t <> "" -> sign_free t = true ->
  solve_equation ((l ++ String "+" t) ++ String "=" r) =
  solve_equation (l ++ String "=" (r ++ String "-" t)).
Proof.
  intros Hl Hr Ht Hln Hrn Htn Hfree. unfold solve_equation.
  rewrite (split_join "=" (l ++ String "+" t) r),
          (split_join "=" l (r ++ String "-" t));
    try assumption;
    try (rewrite count_char_app; simpl; rewrite ?Hl, ?Hr, ?Ht; reflexivity).
  cbn [Py.unpack2 bind].
  rewrite (parse_expression_app_term l t "+" Hln Htn eq_refl Hfree).
  rewrite (parse_expression_app_term r t "-" Hrn Htn eq_refl Hfree).
  change (sign_of "+") with 1. change (sign_of "-") with (-1).
  destruct (parse_expression l) as [[lc lk]|el]; cbn [bind];
    [|reflexivity].
  destruct (parse_expression t) as [[tc tk]|et] eqn:Hpt;
    destruct (parse_expression r) as [[rc rk]|er] eqn:Hpr; cbn [bind];
    try reflexivity.
  - replace (lc + 1 * tc - rc) with (lc - (rc + -1 * tc)) by lia.
    replace (rk - (lk + 1 * tk)) with (rk + -1 * tk - lk) by lia.
    reflexivity.
  - apply (parse_expression_raises_value_error t et Htn) in Hpt.
    apply (parse_expression_raises_value_error r er Hrn) in Hpr.
    congruence.
Qed.

Lemma solve_equation_move_term_witness :
  count_char "=" "2x" = 0%nat /\ count_char "=" "x+7" = 0%nat /\
  count_char "=" "3" = 0%nat /\
  Py.remove_char " " "2x" <> "" /\ Py.remove_char " " "x+7" <> "" /\
  Py.remove_char " " "3" <> "" /\ sign_free "3" = true /\
  solve_equation (("2x" ++ String "+" "3") ++ String "=" "x+7") =
  solve_equation ("2x" ++ String "=" ("x+7" ++ String "-" "3")).
Proof.
  repeat (split; [first [reflexivity | discriminate]|]).
  apply (solve_equation_move_term "2x" "x+7" "3");
    first [reflexivity | discriminate].
Defined.

(** ** An explicit leading sign *)

(** X16: a ['+'] written in front of a side changes nothing, whether
    the side starts with a sign of its own or not. *)
Theorem parse_expression_leading_plus (expr : string) :
  Py.remove_char " " expr <> "" ->
  parse_expression (String "+" expr) = parse_expression expr.
Proof.
  intros Hne. rewrite (parse_expression_nonempty expr Hne).
  rewrite parse_expression_terms. unfold normalize at 1. simpl.
  now apply plus_tokens.
Qed.

Lemma parse_expression_leading_plus_witness :
  Py.remove_char " " "-2x+1" <> "" /\
  parse_expression (String "+" "-2x+1") = parse_expression "-2x+1".
Proof.
  split; [discriminate|].
  apply (parse_expression_leading_plus "-2x+1"). discriminate.
Defined.

(** ** Coefficient strings the loop never sees *)

Lemma scan_term_sign_free (expr : string) (i : nat) (term : string) :
  sign_free term = true -> sign_free (fst (scan_term expr i term)) = true.
Proof.
  funelim (scan_term expr i term); simpl; intros Hterm; try assumption.
  match goal with IH : _ -> ?G |- ?G => apply IH end.
  unfold sign_free in *. rewrite all_chars_app, Hterm. simpl.
  match goal with E : is_sign _ = false |- _ => now rewrite E end.
Qed.

Lemma sign_free_not_sign (s : string) (c : ascii) :
  sign_free s = true -> is_sign c = true -> s <> String c "".
Proof.
  intros Hs Hc ->. unfold sign_free in Hs. simpl in Hs.
  rewrite Hc in Hs. discriminate.
Qed.

(** X17: every term the outer loop hands to "process the term" is free
    of signs, so its coefficient string is never ["+"] or ["-"]: the
    two tests for those strings (lines 86 and 88) never succeed. *)
Theorem coefficient_string_never_sign (expr : string) (i : nat) :
  let term := fst (scan_term expr (S i) "") in
  sign_free term = true /\
  Py.remove_char "x" term <> "+" /\ Py.remove_char "x" term <> "-".
Proof.
  cbv zeta.
  pose proof (scan_term_sign_free expr (S i) "" eq_refl) as Hfree.
  split; [exact Hfree|].
  apply (all_chars_remove_char _ "x") in Hfree.
  split; apply (sign_free_not_sign _ _ Hfree); reflexivity.
Qed.

(** ** When [solve_equation] raises [IndexError] *)

(** X18: [solve_equation] raises [IndexError] exactly when the equation
    has one ['='] and its left side is empty once its spaces are
    removed, or its left side parses and its right side is empty. *)
Theorem solve_equation_index_error_iff (equation : string) :
  solve_equation equation = Raise IndexError <->
  exists l r : string,
    Py.split "=" equation = [l; r] /\
    (Py.remove_char " " l = "" \/
     (exists p, parse_expression l = Ok p) /\ Py.remove_char " " r = "").
Proof.
  unfold solve_equation. split.
  - destruct (Py.split "=" equation) as [|l [|r [|x pieces]]];
      try discriminate.
    intros H. exists l, r. split; [reflexivity|]. simpl in H.
    destruct (parse_expression l) as [[lc lk]|e] eqn:Hl; simpl in H.
    + right. split; [now exists (lc, lk)|].
      destruct (parse_expression r) as [[rc rk]|e] eqn:Hr; simpl in H.
      * destruct (lc - rc =? 0); [destruct (rk - lk =? 0)|]; discriminate.
      * injection H as ->. now apply parse_expression_index_error.
    + injection H as ->. left. now apply parse_expression_index_error.
  - intros (l & r & -> & [Hl|[[[lc lk] Hl] Hr]]); simpl.
    + now rewrite (parse_expression_empty l Hl).
    + rewrite Hl. simpl. now rewrite (parse_expression_empty r Hr).
Qed.
